(** * Veles workflow: unit lookup, buffer sizing and aligned allocation

    A shallow embedding of [libVeles/src/workflow.cc]: the three member
    functions [Workflow::GetUnit], [Workflow::MaxUnitSize] and
    [Workflow::mallocf], written in a small state-and-exception monad over
    the process state they can see (the workflow's [units_] vector, the unit
    objects the handles point to, and the C heap). *)

From Stdlib Require Import NArith ZArith List Permutation Lia String Bool.
Import ListNotations.
Local Open Scope N_scope.

(** ** Machine types (LP64: [size_t] has 64 bits, [sizeof(float)] is 4) *)

Definition size_t := N.
Definition SIZE_WIDTH : N := 64.
Definition wrap (x : N) : size_t := x mod 2 ^ SIZE_WIDTH.
(** [a * b] on two [size_t] operands: unsigned, reduced modulo [2^64]. *)
Definition size_mul (a b : size_t) : size_t := wrap (a * b).
Definition sizeof_float : size_t := 4.

Definition pointer := N.
Definition nullptr : pointer := 0.

(** ** Units and handles

    [Unit] is an abstract class whose declaration (inc/veles/unit.h) is not
    part of this file; the code only calls its two getters, both returning
    [size_t].  A [std::shared_ptr<Unit>] is the address of the managed
    object: two handles are equal exactly when they share the object.  The
    handles a workflow holds own their objects (how units are attached is
    not in this file), so the object store is total: reading a getter
    through a handle always yields a value. *)

Record Unit := mkUnit { InputCount : size_t; OutputCount : size_t }.

Definition shared_ptr := positive.

Record Workflow := mkWorkflow { units_ : list shared_ptr }.

(** ** The C allocator

    [posix_memalign] belongs to libc, so it is an interface here: a heap
    type, the call itself (returning the [int] status and the value stored
    through [memptr], which is meaningful on status 0 only) and the usable
    size of the live block that starts at an address.  The two laws are the
    POSIX postconditions of a successful call. *)

Class Allocator := {
  Heap : Type;
  posix_memalign : N -> size_t -> Heap -> Z * pointer * Heap;
  usable_size : Heap -> pointer -> option N;
  posix_memalign_aligned :
    forall alignment size h ptr h',
      posix_memalign alignment size h = (0%Z, ptr, h') ->
      (alignment | ptr);
  posix_memalign_usable :
    forall alignment size h ptr h',
      posix_memalign alignment size h = (0%Z, ptr, h') ->
      ptr <> nullptr ->
      exists k, usable_size h' ptr = Some k /\ size <= k
}.

(** ** Outcomes and the monad *)

Inductive exception := out_of_range (what : string).

(** What a call can do: return, throw, or run into undefined behaviour
    (an unchecked [operator[]] or [front()] outside the vector). *)
Inductive outcome (A : Type) :=
| Returned (a : A)
| Thrown (e : exception)
| Undefined.
Arguments Returned {A} a.
Arguments Thrown {A} e.
Arguments Undefined {A}.

Section WorkflowModel.

Context {alloc : Allocator}.

Record State := mkState {
  this : Workflow;
  objects : shared_ptr -> Unit;
  heap : Heap
}.

Definition M (A : Type) := State -> outcome A * State.

Definition ret {A} (a : A) : M A := fun s => (Returned a, s).

Definition bind {A B} (c : M A) (k : A -> M B) : M B :=
  fun s =>
    match c s with
    | (Returned a, s') => k a s'
    | (Thrown e, s') => (Thrown e, s')
    | (Undefined, s') => (Undefined, s')
    end.

Definition throw {A} (e : exception) : M A := fun s => (Thrown e, s).
Definition undefined {A} : M A := fun s => (Undefined, s).
Definition gets {A} (f : State -> A) : M A := fun s => (Returned (f s), s).

Notation "x <- c ;; k" := (bind c (fun x => k))
  (at level 61, c at next level, right associativity).

(** ** std:: helpers as the code uses them *)

(** [std::max(a, b)]: [(a < b) ? b : a]. *)
Definition std_max (a b : size_t) : size_t := if a <? b then b else a.

(** [std::accumulate(first, last, init, op)]:
    [for (; first != last; ++first) init = op(init, *first); return init;] *)
Fixpoint accumulate {A B} (range : list B) (init : A) (op : A -> B -> M A)
  : M A :=
  match range with
  | [] => ret init
  | x :: rest => acc <- op init x ;; accumulate rest acc op
  end.

Definition empty {A} (v : list A) : bool :=
  match v with [] => true | _ :: _ => false end.

(** [v.front()]: undefined on an empty vector. *)
Definition front {A} (v : list A) : M A :=
  match v with [] => undefined | x :: _ => ret x end.

(** [v[index]]: undefined outside the vector. *)
Definition vector_at {A} (v : list A) (index : size_t) : M A :=
  match nth_error v (N.to_nat index) with
  | Some x => ret x
  | None => undefined
  end.

(** [unit->InputCount()] and [unit->OutputCount()] through a handle. *)
Definition call_InputCount (unit : shared_ptr) : M size_t :=
  gets (fun s => InputCount (objects s unit)).
Definition call_OutputCount (unit : shared_ptr) : M size_t :=
  gets (fun s => OutputCount (objects s unit)).

Definition read_units_ : M (list shared_ptr) := gets (fun s => units_ (this s)).

(** ** The member functions *)

(** Modelled from the spec: [Workflow::UnitCount()] is declared in
    inc/veles/workflow.h, which is missing here; the spec says it equals the
    length of the unit sequence at all times. *)
Definition UnitCount : M size_t :=
  us <- read_units_ ;; ret (N.of_nat (List.length us)).

(** workflow.cc, lines 21-26. *)
Definition GetUnit (index : size_t) : M shared_ptr :=
  count <- UnitCount ;;
  if count <=? index (* index >= UnitCount() *) then
    throw (out_of_range "index")
  else
    us <- read_units_ ;; vector_at us index.

(** workflow.cc, lines 28-35.  Both arms of the conditional are [size_t]
    (the literal 0 is converted), so the accumulator is a [size_t]. *)
Definition max_func (curr : size_t) (unit : shared_ptr) : M size_t :=
  out <- call_OutputCount unit ;; ret (std_max curr out).

Definition MaxUnitSize : M size_t :=
  us <- read_units_ ;;
  init <- (if negb (empty us)
           then (u <- front us ;; call_InputCount u)
           else ret 0) ;;
  accumulate us init max_func.

(** workflow.cc, lines 37-41.  [ptr] is read only when the status is 0. *)
Definition call_posix_memalign (alignment size : size_t) : M (Z * pointer) :=
  fun s =>
    let '(rc, ptr, h') := posix_memalign alignment size (heap s) in
    (Returned (rc, ptr),
     {| this := this s; objects := objects s; heap := h' |}).

Definition mallocf (length : size_t) : M pointer :=
  r <- call_posix_memalign 64 (size_mul length sizeof_float) ;;
  ret (if (fst r =? 0)%Z then snd r else nullptr).

(** ** Views of a state used in the statements *)

Definition units (s : State) : list shared_ptr := units_ (this s).

(** The unit objects of the chain, in order. *)
Definition chain (s : State) : list Unit := map (objects s) (units s).

(** The spec's words for [MaxUnitSize]: start from the input size of the
    first unit (zero when there is none), then take the running maximum with
    every unit's output size. *)
Definition MaxUnitSize_spec (us : list Unit) : N :=
  fold_left (fun m u => N.max m (OutputCount u)) us
            (match us with [] => 0 | u :: _ => InputCount u end).

(** The reading of the sizing rationale that asks for every unit's input
    and output to fit. *)
Definition covers_every_unit (s : State) : Prop :=
  forall v, fst (MaxUnitSize s) = Returned v ->
  forall u, In u (chain s) -> InputCount u <= v /\ OutputCount u <= v.

(** A connected chain: no unit expects more input than the unit before it
    produces. *)
Fixpoint connected (us : list Unit) : Prop :=
  match us with
  | u :: ((w :: _) as rest) => InputCount w <= OutputCount u /\ connected rest
  | _ => True
  end.

End WorkflowModel.

(** The largest element of a list of sizes (0 for the empty list). *)
Definition maxl (l : list N) : N := fold_right N.max 0 l.

(** ** A reference allocator

    A bump allocator over the address range below [top]: it validates the
    alignment as POSIX asks (a power of two, a multiple of [sizeof(void* )]),
    rounds the break up to the alignment and records each block with the
    size that was asked for.  It instantiates [Allocator], so every theorem
    below can be run on it. *)

Record arena := mkArena {
  brk : N;
  top : N;
  live : list (pointer * N)
}.

Definition EINVAL : Z := 22.
Definition ENOMEM : Z := 12.

Definition is_pow2 (a : N) : bool := (0 <? a) && (N.land a (a - 1) =? 0).

Definition round_up (x a : N) : N := (x + a - 1) / a * a.

Definition arena_memalign (alignment size : N) (h : arena)
  : Z * pointer * arena :=
  if negb (is_pow2 alignment && (alignment mod 8 =? 0)) then (EINVAL, nullptr, h)
  else
    let p := round_up (brk h) alignment in
    if top h <? p + size then (ENOMEM, nullptr, h)
    else (0%Z, p, {| brk := p + N.max size 1;
                     top := top h;
                     live := (p, size) :: live h |}).

Definition arena_usable (h : arena) (p : pointer) : option N :=
  option_map snd (find (fun b => fst b =? p) (live h)).

#[export] Instance arena_allocator : Allocator.
Proof.
  refine {| Heap := arena;
            posix_memalign := arena_memalign;
            usable_size := arena_usable |}.
  - intros alignment size h ptr h'. unfold arena_memalign.
    destruct (negb _); [discriminate|].
    destruct (top h <? _); [discriminate|].
    intros E. injection E as <- _. unfold round_up.
    apply N.divide_factor_r.
  - intros alignment size h ptr h'. unfold arena_memalign.
    destruct (negb _); [discriminate|].
    destruct (top h <? _); [discriminate|].
    intros E _. injection E as <- <-. exists size.
    unfold arena_usable. cbn [live find fst]. rewrite N.eqb_refl.
    split; [reflexivity | apply N.le_refl].
Defined.

(** ** Sample states *)

Definition fresh_arena : arena := {| brk := 4096; top := 2 ^ 40; live := [] |}.
Definition full_arena : arena := {| brk := 4096; top := 4096; live := [] |}.

Definition unit_table (us : list Unit) (p : shared_ptr) : Unit :=
  nth (Pos.to_nat p - 1) us (mkUnit 0 0).

Definition state_of (us : list Unit) (handles : list shared_ptr) (h : arena)
  : State :=
  {| this := mkWorkflow handles; objects := unit_table us; heap := h |}.

(** Three units with output sizes 3, 7, 2; the first expects 5 inputs. *)
Definition sample_units : list Unit := [mkUnit 5 3; mkUnit 3 7; mkUnit 7 2].
Definition sample : State := state_of sample_units [1; 2; 3]%positive fresh_arena.

(** The same units with the last two exchanged. *)
Definition sample_swapped : State :=
  state_of sample_units [1; 3; 2]%positive fresh_arena.

(** A second unit that expects more input than anything produces. *)
Definition wide_input : State :=
  state_of [mkUnit 1 1; mkUnit 10 1] [1; 2]%positive fresh_arena.

Definition empty_workflow : State := state_of [] [] fresh_arena.

Definition out_of_memory : State := state_of sample_units [1; 2; 3]%positive full_arena.

(** [sample] with one more unit object in the store that the workflow does
    not hold. *)
Definition sample_with_spare : State :=
  state_of (sample_units ++ [mkUnit 2 9]) [1; 2; 3]%positive fresh_arena.

(** [sample_with_spare] after that unit (handle 4) was pushed onto
    [units_]. *)
Definition sample_extended : State :=
  state_of (sample_units ++ [mkUnit 2 9]) [1; 2; 3; 4]%positive fresh_arena.

(** The smallest element count whose byte size does not fit a [size_t]
    any more, plus one: [2^62 + 1]. *)
Definition huge_length : size_t := 2 ^ 62 + 1.

(** * Properties *)

Section WorkflowProperties.

Context {alloc : Allocator}.

(** ** Running the monadic code *)

Lemma std_max_is_max (a b : size_t) : std_max a b = N.max a b.
Proof.
  unfold std_max. destruct (N.ltb_spec a b); lia.
Qed.

Lemma UnitCount_run (s : State) :
  UnitCount s = (Returned (N.of_nat (List.length (units s))), s).
Proof. reflexivity. Qed.

(** The accumulation only reads the unit objects: it leaves the state alone
    and computes a left fold over the handles. *)
Lemma accumulate_max_func_run (s : State) (us : list shared_ptr) :
  forall init,
    accumulate us init max_func s =
    (Returned (fold_left (fun m u => N.max m (OutputCount u))
                         (map (objects s) us) init), s).
Proof.
  induction us as [|p us IH]; intros init; [reflexivity|].
  cbn [accumulate map fold_left].
  unfold bind at 1. unfold max_func at 1, bind, call_OutputCount, gets, ret.
  rewrite std_max_is_max. apply IH.
Qed.

Lemma MaxUnitSize_run (s : State) :
  MaxUnitSize s = (Returned (MaxUnitSize_spec (chain s)), s).
Proof.
  unfold MaxUnitSize, MaxUnitSize_spec, chain, units, read_units_.
  unfold bind at 1. unfold gets at 1.
  destruct (units_ (this s)) as [|p us] eqn:E.
  - reflexivity.
  - cbn [empty negb front map]. unfold bind, ret, call_InputCount, gets.
    apply accumulate_max_func_run.
Qed.

(** ** The running maximum as a maximum *)

Lemma fold_left_max_maxl (us : list Unit) :
  forall init,
    fold_left (fun m u => N.max m (OutputCount u)) us init =
    N.max init (maxl (map OutputCount us)).
Proof.
  induction us as [|u us IH]; intros init; cbn [fold_left map maxl fold_right].
  - lia.
  - rewrite IH. fold (maxl (map OutputCount us)). lia.
Qed.

Lemma maxl_Permutation (l l' : list N) :
  Permutation l l' -> maxl l = maxl l'.
Proof.
  induction 1; cbn [maxl fold_right] in *; try lia.
  fold (maxl l) in *. fold (maxl l') in *. lia.
Qed.

Lemma maxl_upper (l : list N) (x : N) : In x l -> x <= maxl l.
Proof.
  induction l as [|y l IH]; cbn [In maxl fold_right]; [tauto|].
  fold (maxl l). intros [->|H]; [|specialize (IH H)]; lia.
Qed.

Lemma connected_inputs_bounded (us : list Unit) :
  connected us ->
  forall first rest, us = first :: rest ->
  forall u, In u us ->
    InputCount u <= N.max (InputCount first) (maxl (map OutputCount us)).
Proof.
  induction us as [|a us IH]; intros Hc first rest E u Hin; [discriminate|].
  injection E as <- <-.
  destruct Hin as [<-|Hin]; [lia|].
  destruct us as [|b us']; [destruct Hin|].
  destruct Hc as [Hab Hc].
  specialize (IH Hc b us' eq_refl u Hin).
  cbn [map maxl fold_right] in *.
  fold (maxl (map OutputCount us')) in *. lia.
Qed.

(** ** [MaxUnitSize] *)

(** C1. [MaxUnitSize()] returns the fold the spec describes: it starts from
    the first unit's [InputCount] (zero for an empty sequence) and takes the
    running maximum with each unit's [OutputCount] in order.  On units with
    output counts 3, 7, 2 whose first unit has input count 5 it returns 7. *)
Theorem MaxUnitSize_is_fold (s : State) :
  MaxUnitSize s = (Returned (MaxUnitSize_spec (chain s)), s) /\
  (map OutputCount (chain s) = [3; 7; 2] ->
   option_map InputCount (hd_error (chain s)) = Some 5 ->
   MaxUnitSize s = (Returned 7, s)).
Proof.
  split; [apply MaxUnitSize_run|].
  intros Hout Hin. rewrite MaxUnitSize_run. unfold MaxUnitSize_spec.
  rewrite fold_left_max_maxl, Hout.
  destruct (chain s) as [|u us]; [discriminate|].
  cbn in Hin. injection Hin as ->. reflexivity.
Qed.

(** C2, as amended. [MaxUnitSize()] returns a value that is at least the
    [InputCount] of the first unit and the [OutputCount] of every unit; in a
    connected chain, where no unit expects more input than its predecessor
    produces, it is at least every unit's [InputCount] too. *)
Theorem MaxUnitSize_covers (s : State) :
  exists v, MaxUnitSize s = (Returned v, s) /\
    (forall u, hd_error (chain s) = Some u -> InputCount u <= v) /\
    (forall u, In u (chain s) -> OutputCount u <= v) /\
    (connected (chain s) -> forall u, In u (chain s) -> InputCount u <= v).
Proof.
  exists (MaxUnitSize_spec (chain s)). split; [apply MaxUnitSize_run|].
  unfold MaxUnitSize_spec. rewrite fold_left_max_maxl.
  split; [|split].
  - intros u E. destruct (chain s); [discriminate|]. injection E as ->. lia.
  - intros u Hin.
    pose proof (maxl_upper (map OutputCount (chain s)) (OutputCount u)
                           (in_map _ _ _ Hin)). lia.
  - intros Hc u Hin. destruct (chain s) as [|a us] eqn:E; [destruct Hin|].
    apply (connected_inputs_bounded (a :: us) Hc a us eq_refl u Hin).
Qed.

(** C5. On an empty unit sequence [MaxUnitSize()] returns 0, and on every
    workflow it returns a value: it neither throws nor reaches an unchecked
    access. *)
Theorem MaxUnitSize_never_fails (s : State) :
  (units s = [] -> MaxUnitSize s = (Returned 0, s)) /\
  exists v, MaxUnitSize s = (Returned v, s).
Proof.
  split.
  - intros E. rewrite MaxUnitSize_run. unfold chain. rewrite E. reflexivity.
  - eexists. apply MaxUnitSize_run.
Qed.

(** C10. [MaxUnitSize()] depends only on the first unit's [InputCount] and
    on the multiset of all [OutputCount]s: two workflows that agree on those
    get the same result, whatever the [InputCount]s of their later units.
    In particular, permuting the units behind a fixed first unit does not
    change it. *)
Theorem MaxUnitSize_permutation_invariant (s1 s2 : State) :
  (option_map InputCount (hd_error (chain s1)) =
   option_map InputCount (hd_error (chain s2)) ->
   Permutation (map OutputCount (chain s1)) (map OutputCount (chain s2)) ->
   fst (MaxUnitSize s1) = fst (MaxUnitSize s2)) /\
  (forall first rest1 rest2,
     chain s1 = first :: rest1 -> chain s2 = first :: rest2 ->
     Permutation rest1 rest2 ->
     fst (MaxUnitSize s1) = fst (MaxUnitSize s2)).
Proof.
  assert (G : option_map InputCount (hd_error (chain s1)) =
              option_map InputCount (hd_error (chain s2)) ->
              Permutation (map OutputCount (chain s1))
                          (map OutputCount (chain s2)) ->
              fst (MaxUnitSize s1) = fst (MaxUnitSize s2)).
  { intros Hin Hperm. rewrite !MaxUnitSize_run. cbn [fst]. f_equal.
    unfold MaxUnitSize_spec. rewrite !fold_left_max_maxl.
    rewrite (maxl_Permutation _ _ Hperm). f_equal.
    destruct (chain s1), (chain s2); cbn in Hin; try discriminate;
      [reflexivity | now injection Hin]. }
  split; [exact G|].
  intros first rest1 rest2 E1 E2 Hperm. apply G; rewrite E1, E2.
  - reflexivity.
  - cbn [map]. apply perm_skip, Permutation_map, Hperm.
Qed.

(** ** [GetUnit] *)

Lemma GetUnit_run_in_range (s : State) (index : size_t) (p : shared_ptr) :
  nth_error (units s) (N.to_nat index) = Some p ->
  GetUnit index s = (Returned p, s).
Proof.
  intros E. unfold GetUnit. unfold bind at 1. rewrite UnitCount_run.
  assert (Hlt : (N.to_nat index < List.length (units s))%nat)
    by (apply nth_error_Some; congruence).
  destruct (N.leb_spec (N.of_nat (List.length (units s))) index); [lia|].
  unfold bind, read_units_, gets, vector_at. fold (units s). rewrite E.
  reflexivity.
Qed.

Lemma GetUnit_run_out_of_range (s : State) (index : size_t) :
  N.of_nat (List.length (units s)) <= index ->
  GetUnit index s = (Thrown (out_of_range "index"), s).
Proof.
  intros H. unfold GetUnit. unfold bind at 1. rewrite UnitCount_run.
  destruct (N.leb_spec (N.of_nat (List.length (units s))) index); [|lia].
  reflexivity.
Qed.

Lemma nth_error_in_range (s : State) (index : size_t) :
  index < N.of_nat (List.length (units s)) ->
  exists p, nth_error (units s) (N.to_nat index) = Some p.
Proof.
  intros H. destruct (nth_error (units s) (N.to_nat index)) eqn:E; [eauto|].
  apply nth_error_None in E. lia.
Qed.

(** C3. For every index below [UnitCount()], [GetUnit] returns, without
    throwing, the handle stored at that position of the unit sequence. *)
Theorem GetUnit_in_range (s : State) (index count : size_t) :
  UnitCount s = (Returned count, s) ->
  index < count ->
  exists p, nth_error (units s) (N.to_nat index) = Some p /\
            GetUnit index s = (Returned p, s).
Proof.
  rewrite UnitCount_run. intros E Hlt. injection E as <-.
  destruct (nth_error_in_range s index Hlt) as [p Hp].
  exists p. split; [exact Hp | apply GetUnit_run_in_range, Hp].
Qed.

(** C4. [GetUnit(index)] throws exactly when [index >= UnitCount()]; what it
    throws is [std::out_of_range], and the throw is the outcome of the call
    itself: nothing in [GetUnit] catches it or tries again. *)
Theorem GetUnit_throws_iff_out_of_range (s : State) (index count : size_t) :
  UnitCount s = (Returned count, s) ->
  ((exists e, fst (GetUnit index s) = Thrown e) <-> count <= index) /\
  (count <= index -> GetUnit index s = (Thrown (out_of_range "index"), s)).
Proof.
  rewrite UnitCount_run. intros E. injection E as <-.
  split; [split|].
  - intros [e He]. destruct (N.le_gt_cases (N.of_nat (List.length (units s))) index)
      as [Hle|Hgt]; [exact Hle|].
    destruct (nth_error_in_range s index Hgt) as [p Hp].
    rewrite (GetUnit_run_in_range s index p Hp) in He. discriminate.
  - intros Hle. rewrite (GetUnit_run_out_of_range s index Hle). cbn [fst]. eauto.
  - apply GetUnit_run_out_of_range.
Qed.

(** ** Frame *)

Lemma GetUnit_state (s : State) (index : size_t) : snd (GetUnit index s) = s.
Proof.
  destruct (N.le_gt_cases (N.of_nat (List.length (units s))) index) as [H|H].
  - now rewrite GetUnit_run_out_of_range.
  - destruct (nth_error_in_range s index H) as [p Hp].
    now rewrite (GetUnit_run_in_range s index p Hp).
Qed.

Lemma mallocf_run (s : State) (length : size_t) :
  mallocf length s =
  let r := posix_memalign 64 (size_mul length sizeof_float) (heap s) in
  (Returned (if (fst (fst r) =? 0)%Z then snd (fst r) else nullptr),
   {| this := this s; objects := objects s; heap := snd r |}).
Proof.
  unfold mallocf, bind, call_posix_memalign, ret.
  destruct (posix_memalign _ _ _) as [[rc ptr] h']. reflexivity.
Qed.

(** C6. [GetUnit] and [MaxUnitSize] have no side effects: whatever the
    argument, and whether [GetUnit] returns or throws, the state after the
    call is the state before it. *)
Theorem const_methods_leave_state (s : State) (index : size_t) :
  snd (GetUnit index s) = s /\
  snd (MaxUnitSize s) = s /\
  units (snd (GetUnit index s)) = units s /\
  fst (UnitCount (snd (GetUnit index s))) = fst (UnitCount s) /\
  units (snd (MaxUnitSize s)) = units s /\
  fst (UnitCount (snd (MaxUnitSize s))) = fst (UnitCount s).
Proof.
  rewrite GetUnit_state, MaxUnitSize_run. cbn [snd]. repeat split.
Qed.

(** C9. [UnitCount()] is the length of the unit sequence in every state (0
    for the empty sequence, which is allowed), and the three operations keep
    it so: none of them changes the sequence, so the count after the call is
    the count before it and still the length. *)
Theorem UnitCount_is_length (s : State) (index length : size_t) :
  UnitCount s = (Returned (N.of_nat (List.length (units s))), s) /\
  (units s = [] -> UnitCount s = (Returned 0, s)) /\
  (forall s', s' = snd (GetUnit index s) \/ s' = snd (MaxUnitSize s) \/
              s' = snd (mallocf length s) ->
     units s' = units s /\
     fst (UnitCount s') = Returned (N.of_nat (List.length (units s')))).
Proof.
  split; [reflexivity|]. split.
  - intros E. rewrite UnitCount_run, E. reflexivity.
  - intros s' [->|[->| ->]].
    + rewrite GetUnit_state. split; reflexivity.
    + rewrite MaxUnitSize_run. split; reflexivity.
    + rewrite mallocf_run. split; reflexivity.
Qed.

(** ** [mallocf] *)

(** C7. When [posix_memalign] reports failure (a non-zero status),
    [mallocf] returns the null pointer: the failure is the returned value,
    not a thrown exception, and it is not hidden behind a non-null result. *)
Theorem mallocf_null_on_failure (s : State) (length : size_t) :
  fst (fst (posix_memalign 64 (size_mul length sizeof_float) (heap s))) <> 0%Z ->
  fst (mallocf length s) = Returned nullptr.
Proof.
  intros H. rewrite mallocf_run. cbn [fst].
  destruct (Z.eqb_spec
    (fst (fst (posix_memalign 64 (size_mul length sizeof_float) (heap s)))) 0);
    [contradiction | reflexivity].
Qed.

(** X7. Below the wrap-around the request is the full byte size, and a
    non-null result is 64-byte aligned and backed by at least that many
    bytes, for every allocator that keeps the POSIX postconditions. *)
Lemma mallocf_small_ok (s : State) (length : size_t) (p : pointer) :
  length * sizeof_float < 2 ^ SIZE_WIDTH ->
  fst (mallocf length s) = Returned p ->
  p <> nullptr ->
  p mod 64 = 0 /\
  exists k, usable_size (heap (snd (mallocf length s))) p = Some k /\
            length * sizeof_float <= k.
Proof.
  intros Hsmall. rewrite mallocf_run. cbn [fst snd heap].
  assert (Hreq : size_mul length sizeof_float = length * sizeof_float)
    by (unfold size_mul, wrap; apply N.mod_small, Hsmall).
  rewrite Hreq.
  destruct (posix_memalign 64 (length * sizeof_float) (heap s))
    as [[rc ptr] h'] eqn:E. cbn [fst snd].
  destruct (Z.eqb_spec rc 0) as [->|Hrc]; intros Hp Hnn;
    injection Hp as <-; [|contradiction].
  split.
  - apply N.Lcm0.mod_divide. exact (posix_memalign_aligned _ _ _ _ _ E).
  - exact (posix_memalign_usable _ _ _ _ _ E Hnn).
Qed.

(** Past the wrap-around the allocator is asked for the reduced size only,
    whatever allocator is linked in. *)
Lemma mallocf_huge_request (s : State) :
  mallocf huge_length s =
  let r := posix_memalign 64 4 (heap s) in
  (Returned (if (fst (fst r) =? 0)%Z then snd (fst r) else nullptr),
   {| this := this s; objects := objects s; heap := snd r |}).
Proof.
  rewrite mallocf_run.
  replace (size_mul huge_length sizeof_float) with 4 by reflexivity.
  reflexivity.
Qed.

End WorkflowProperties.

(** * The theorems at work on the reference allocator *)

Lemma MaxUnitSize_is_fold_witness : MaxUnitSize sample = (Returned 7, sample).
Proof.
  apply (proj2 (MaxUnitSize_is_fold sample)); reflexivity.
Defined.

(** C2, as the rationale reads. With units (in 1, out 1) and (in 10, out 1)
    [MaxUnitSize()] returns 1, below the second unit's [InputCount]. *)
Lemma MaxUnitSize_misses_later_input : ~ covers_every_unit wide_input.
Proof.
  intros H.
  destruct (H 1 eq_refl (mkUnit 10 1)) as [Hin _].
  - right; left; reflexivity.
  - vm_compute in Hin. apply Hin. reflexivity.
Qed.

Lemma MaxUnitSize_covers_witness :
  connected (chain sample) /\
  exists v, MaxUnitSize sample = (Returned v, sample) /\
            forall u, In u (chain sample) -> InputCount u <= v.
Proof.
  assert (Hc : connected (chain sample))
    by (vm_compute; repeat split; discriminate).
  split; [exact Hc|].
  destruct (MaxUnitSize_covers sample) as (v & Hv & _ & _ & Hall).
  exists v. split; [exact Hv | exact (Hall Hc)].
Defined.

Lemma GetUnit_in_range_witness :
  exists p, nth_error (units sample) (N.to_nat 1) = Some p /\
            GetUnit 1 sample = (Returned p, sample).
Proof.
  apply (GetUnit_in_range sample 1 3); reflexivity.
Defined.

Lemma GetUnit_throws_iff_out_of_range_witness :
  GetUnit 3 sample = (Thrown (out_of_range "index"), sample).
Proof.
  apply (proj2 (GetUnit_throws_iff_out_of_range sample 3 3 eq_refl)).
  discriminate.
Defined.

Lemma MaxUnitSize_never_fails_witness :
  MaxUnitSize empty_workflow = (Returned 0, empty_workflow).
Proof.
  apply (proj1 (MaxUnitSize_never_fails empty_workflow)). reflexivity.
Defined.

Lemma UnitCount_is_length_witness :
  UnitCount empty_workflow = (Returned 0, empty_workflow) /\
  units (snd (mallocf 16 sample)) = units sample.
Proof.
  destruct (UnitCount_is_length sample 0 16) as (_ & _ & Hkeep).
  split.
  - apply (proj1 (proj2 (UnitCount_is_length empty_workflow 0 0))).
    reflexivity.
  - apply (Hkeep (snd (mallocf 16 sample))). right; right; reflexivity.
Defined.

Lemma mallocf_null_on_failure_witness :
  fst (mallocf 16 out_of_memory) = Returned nullptr.
Proof.
  apply mallocf_null_on_failure. vm_compute. discriminate.
Defined.

Lemma mallocf_small_ok_witness :
  4096 mod 64 = 0 /\
  exists k, usable_size (heap (snd (mallocf 16 sample))) 4096 = Some k /\
            16 * sizeof_float <= k.
Proof.
  apply (mallocf_small_ok sample 16 4096);
    [reflexivity | reflexivity | discriminate].
Defined.

Lemma MaxUnitSize_permutation_invariant_witness :
  fst (MaxUnitSize sample) = fst (MaxUnitSize sample_swapped).
Proof.
  apply (proj2 (MaxUnitSize_permutation_invariant sample sample_swapped)
               (mkUnit 5 3) [mkUnit 3 7; mkUnit 7 2] [mkUnit 7 2; mkUnit 3 7]);
    [reflexivity | reflexivity | apply perm_swap].
Defined.

(** C8. The byte size handed to the allocator is [length * sizeof(float)]
    reduced modulo [2^64], so it is not always the full byte size.  For
    [length = 2^62 + 1] the request is 4 bytes: the call succeeds on the
    reference allocator with a non-null, 64-byte aligned pointer to a block
    of 4 usable bytes, far fewer than the [length * 4] bytes the caller was
    promised. *)
Theorem mallocf_wraps_byte_size :
  size_mul huge_length sizeof_float = 4 /\
  exists p,
    fst (mallocf huge_length sample) = Returned p /\
    p <> nullptr /\
    p mod 64 = 0 /\
    usable_size (heap (snd (mallocf huge_length sample))) p = Some 4 /\
    4 < huge_length * sizeof_float.
Proof.
  split; [reflexivity|].
  exists 4096. repeat split; try reflexivity. discriminate.
Qed.

(** * Further properties of the three functions *)

Section WorkflowFurther.

Context {alloc : Allocator}.

(** ** What the queries read *)

Lemma MaxUnitSize_closed_form (s : State) :
  MaxUnitSize s =
  (Returned (N.max (match chain s with [] => 0 | u :: _ => InputCount u end)
                   (maxl (map OutputCount (chain s)))), s).
Proof.
  rewrite MaxUnitSize_run. unfold MaxUnitSize_spec.
  now rewrite fold_left_max_maxl.
Qed.

Lemma maxl_least (l : list N) (b : N) :
  (forall x, In x l -> x <= b) -> maxl l <= b.
Proof.
  induction l as [|y l IH]; intros H; cbn [maxl fold_right]; [lia|].
  fold (maxl l).
  assert (y <= b) by (apply H; now left).
  assert (maxl l <= b) by (apply IH; intros x Hx; apply H; now right).
  lia.
Qed.

Lemma maxl_attained (l : list N) : l <> [] -> In (maxl l) l.
Proof.
  induction l as [|y l IH]; intros Hne; [contradiction|].
  cbn [maxl fold_right]. fold (maxl l).
  destruct l as [|z l'].
  - left. cbn. lia.
  - destruct (N.max_spec y (maxl (z :: l'))) as [[_ ->]|[_ ->]].
    + right. apply IH. discriminate.
    + now left.
Qed.

Lemma GetUnit_depends_on_units (s s' : State) (index : size_t) :
  units s' = units s -> fst (GetUnit index s') = fst (GetUnit index s).
Proof.
  intros E.
  destruct (N.le_gt_cases (N.of_nat (List.length (units s))) index) as [H|H].
  - rewrite (GetUnit_run_out_of_range s index H).
    rewrite <- E in H. now rewrite (GetUnit_run_out_of_range s' index H).
  - destruct (nth_error_in_range s index H) as [p Hp].
    rewrite (GetUnit_run_in_range s index p Hp).
    rewrite <- E in Hp. now rewrite (GetUnit_run_in_range s' index p Hp).
Qed.

Lemma chain_ext (s s' : State) :
  units s' = units s ->
  (forall p, In p (units s) -> objects s' p = objects s p) ->
  chain s' = chain s.
Proof.
  intros E H. unfold chain. rewrite E. apply map_ext_in, H.
Qed.

(** ** [MaxUnitSize] *)

(** X1. [MaxUnitSize()] is the least sufficient size: it is below every
    bound that covers the first unit's [InputCount] and all [OutputCount]s,
    and on a non-empty workflow it is one of those counts, so no larger
    than what some unit really needs. *)
Theorem MaxUnitSize_least (s : State) :
  exists v, MaxUnitSize s = (Returned v, s) /\
    (forall b,
       (forall u, hd_error (chain s) = Some u -> InputCount u <= b) ->
       (forall u, In u (chain s) -> OutputCount u <= b) ->
       v <= b) /\
    (units s <> [] ->
     (exists u, hd_error (chain s) = Some u /\ v = InputCount u) \/
     (exists u, In u (chain s) /\ v = OutputCount u)).
Proof.
  eexists. split; [apply MaxUnitSize_closed_form|]. split.
  - intros b Hin Hout.
    assert (maxl (map OutputCount (chain s)) <= b).
    { apply maxl_least. intros x Hx. apply in_map_iff in Hx.
      destruct Hx as (u & <- & Hu). now apply Hout. }
    destruct (chain s) as [|u us]; [lia|].
    specialize (Hin u eq_refl). lia.
  - intros Hne. destruct (chain s) as [|a us] eqn:E.
    + apply map_eq_nil in E. contradiction.
    + destruct (N.max_spec (InputCount a) (maxl (map OutputCount (a :: us))))
        as [[_ ->]|[_ ->]].
      * right. assert (Hin : In (maxl (map OutputCount (a :: us)))
                                (map OutputCount (a :: us)))
          by (apply maxl_attained; discriminate).
        apply in_map_iff in Hin. destruct Hin as (u & Hu & Hin).
        exists u. split; [exact Hin | now symmetry].
      * left. exists a. split; reflexivity.
Qed.

(** X2. Pushing one more unit onto the sequence: on a non-empty workflow
    the new [MaxUnitSize()] is the old one raised to the new unit's
    [OutputCount] (its [InputCount] is not looked at); on an empty workflow
    it is the larger of the new unit's two counts. *)
Theorem MaxUnitSize_push_back (s s' : State) (p : shared_ptr) (v : size_t) :
  (forall q, objects s' q = objects s q) ->
  units s' = units s ++ [p] ->
  fst (MaxUnitSize s) = Returned v ->
  fst (MaxUnitSize s') =
  Returned (if empty (units s)
            then N.max (InputCount (objects s p)) (OutputCount (objects s p))
            else N.max v (OutputCount (objects s p))).
Proof.
  intros Hobj Hunits. rewrite !MaxUnitSize_run. cbn [fst].
  intros Hv. injection Hv as <-. f_equal.
  assert (Hchain : chain s' = chain s ++ [objects s p]).
  { unfold chain. rewrite Hunits, map_app. cbn [map].
    rewrite Hobj. f_equal. apply map_ext, Hobj. }
  rewrite Hchain. unfold MaxUnitSize_spec, chain.
  destruct (units s) as [|q qs]; [reflexivity|].
  cbn [empty map app fold_left]. rewrite fold_left_app. reflexivity.
Qed.

(** X3. If every unit reports counts that fit a [size_t], so does
    [MaxUnitSize()]: the code only compares, it never adds, and nothing can
    wrap. *)
Theorem MaxUnitSize_in_range (s : State) :
  (forall u, In u (chain s) ->
     InputCount u < 2 ^ SIZE_WIDTH /\ OutputCount u < 2 ^ SIZE_WIDTH) ->
  exists v, MaxUnitSize s = (Returned v, s) /\ v < 2 ^ SIZE_WIDTH.
Proof.
  intros H. eexists. split; [apply MaxUnitSize_closed_form|].
  assert (Hout : maxl (map OutputCount (chain s)) <= 2 ^ SIZE_WIDTH - 1).
  { apply maxl_least. intros x Hx. apply in_map_iff in Hx.
    destruct Hx as (u & <- & Hu). destruct (H u Hu). lia. }
  assert (0 < 2 ^ SIZE_WIDTH) by reflexivity.
  destruct (chain s) as [|u us]; [lia|].
  destruct (H u (or_introl eq_refl)). lia.
Qed.

(** X11. [MaxUnitSize()] reads only the units the workflow holds: changing
    any other unit object leaves the result as it was. *)
Theorem MaxUnitSize_reads_held_units_only (s s' : State) :
  units s' = units s ->
  (forall p, In p (units s) -> objects s' p = objects s p) ->
  fst (MaxUnitSize s') = fst (MaxUnitSize s).
Proof.
  intros E H. rewrite !MaxUnitSize_run. cbn [fst].
  now rewrite (chain_ext s s' E H).
Qed.

(** ** [GetUnit] *)

(** X4. [GetUnit] never reaches the unchecked [operator[]] outside the
    vector: for every index it either returns a handle that the workflow
    holds or throws [std::out_of_range]. *)
Theorem GetUnit_returns_member_or_throws (s : State) (index : size_t) :
  (exists p, GetUnit index s = (Returned p, s) /\ In p (units s)) \/
  GetUnit index s = (Thrown (out_of_range "index"), s).
Proof.
  destruct (N.le_gt_cases (N.of_nat (List.length (units s))) index) as [H|H].
  - right. now apply GetUnit_run_out_of_range.
  - left. destruct (nth_error_in_range s index H) as [p Hp].
    exists p. split; [now apply GetUnit_run_in_range|].
    eapply nth_error_In, Hp.
Qed.

(** X5. Every handle the workflow holds can be fetched: there is an index
    below the unit count at which [GetUnit] returns it. *)
Theorem GetUnit_reaches_every_unit (s : State) (p : shared_ptr) :
  In p (units s) ->
  exists index, index < N.of_nat (List.length (units s)) /\
                GetUnit index s = (Returned p, s).
Proof.
  intros Hin. apply In_nth_error in Hin. destruct Hin as [n Hn].
  exists (N.of_nat n). split.
  - assert (n < List.length (units s))%nat
      by (apply nth_error_Some; congruence). lia.
  - apply GetUnit_run_in_range. now rewrite Nat2N.id.
Qed.

(** X10. The size [MaxUnitSize()] returns fits what [GetUnit] hands out:
    the [OutputCount] of the unit returned for any valid index, and the
    [InputCount] of the unit at index 0. *)
Theorem MaxUnitSize_fits_GetUnit
        (s : State) (index : size_t) (p : shared_ptr) (v : size_t) :
  fst (GetUnit index s) = Returned p ->
  fst (MaxUnitSize s) = Returned v ->
  OutputCount (objects s p) <= v /\
  (index = 0 -> InputCount (objects s p) <= v).
Proof.
  intros Hget. rewrite MaxUnitSize_closed_form. cbn [fst].
  intros Hv. injection Hv as <-.
  destruct (N.le_gt_cases (N.of_nat (List.length (units s))) index) as [H|H];
    [rewrite (GetUnit_run_out_of_range s index H) in Hget; discriminate|].
  destruct (nth_error_in_range s index H) as [q Hq].
  rewrite (GetUnit_run_in_range s index q Hq) in Hget.
  cbn [fst] in Hget. injection Hget as ->.
  split.
  - assert (Hmem : In (OutputCount (objects s p)) (map OutputCount (chain s))).
    { apply in_map. unfold chain. apply in_map. eapply nth_error_In, Hq. }
    pose proof (maxl_upper _ _ Hmem). lia.
  - intros ->. unfold chain. cbn in Hq.
    destruct (units s) as [|q qs]; [discriminate|].
    injection Hq as ->. cbn [map]. lia.
Qed.

(** ** [mallocf] *)

(** X6. [mallocf] touches the heap only: after it, whether it got memory
    or not, [GetUnit] and [MaxUnitSize] answer as before. *)
Theorem mallocf_keeps_queries (s : State) (length index : size_t) :
  fst (GetUnit index (snd (mallocf length s))) = fst (GetUnit index s) /\
  fst (MaxUnitSize (snd (mallocf length s))) = fst (MaxUnitSize s).
Proof.
  rewrite mallocf_run. cbn [snd]. split.
  - now apply GetUnit_depends_on_units.
  - rewrite !MaxUnitSize_run. reflexivity.
Qed.

(** X8. The request sent to the allocator is the full byte size exactly
    for lengths below [2^62]; in general [mallocf] cannot tell a length
    from its remainder modulo [2^62]. *)
Theorem mallocf_length_modulo (s : State) (length : size_t) :
  (size_mul length sizeof_float = length * sizeof_float <-> length < 2 ^ 62) /\
  mallocf length s = mallocf (length mod 2 ^ 62) s.
Proof.
  assert (Hred : forall n, size_mul n sizeof_float = n mod 2 ^ 62 * 4).
  { intros n. unfold size_mul, wrap, sizeof_float.
    change (2 ^ SIZE_WIDTH) with (2 ^ 62 * 4).
    apply N.Div0.mul_mod_distr_r. }
  split.
  - rewrite Hred. unfold sizeof_float. split.
    + intros E. assert (length mod 2 ^ 62 = length) by lia.
      rewrite <- H. apply N.mod_lt. discriminate.
    + intros Hlt. now rewrite N.mod_small.
  - rewrite !mallocf_run, !Hred. now rewrite N.Div0.mod_mod.
Qed.

(** X9. A non-null result of [mallocf] always comes from a successful
    [posix_memalign]: it is the pointer the allocator stored together with
    status 0, never the unset [ptr] of a failed call. *)
Theorem mallocf_nonnull_from_success
        (s : State) (length : size_t) (p : pointer) :
  fst (mallocf length s) = Returned p ->
  p <> nullptr ->
  posix_memalign 64 (size_mul length sizeof_float) (heap s) =
  (0%Z, p, heap (snd (mallocf length s))).
Proof.
  rewrite mallocf_run. cbn [fst snd heap].
  destruct (posix_memalign 64 (size_mul length sizeof_float) (heap s))
    as [[rc ptr] h']. cbn [fst snd].
  destruct (Z.eqb_spec rc 0) as [->|Hrc]; intros Hp Hnn;
    injection Hp as <-; [reflexivity | contradiction].
Qed.

End WorkflowFurther.

(** * The further properties on the reference allocator *)

Lemma MaxUnitSize_least_witness :
  exists v, MaxUnitSize sample = (Returned v, sample) /\ v <= 7 /\
    ((exists u, hd_error (chain sample) = Some u /\ v = InputCount u) \/
     (exists u, In u (chain sample) /\ v = OutputCount u)).
Proof.
  destruct (MaxUnitSize_least sample) as (v & Hv & Hleast & Hhit).
  exists v. split; [exact Hv|]. split.
  - apply Hleast.
    + intros u E. vm_compute in E. injection E as <-. vm_compute. discriminate.
    + intros u Hin. vm_compute in Hin.
      destruct Hin as [<-|[<-|[<-|[]]]]; vm_compute; discriminate.
  - apply Hhit. discriminate.
Defined.

Lemma MaxUnitSize_push_back_witness :
  fst (MaxUnitSize sample_extended) = Returned 9.
Proof.
  exact (MaxUnitSize_push_back sample_with_spare sample_extended 4%positive 7
           (fun q => eq_refl) eq_refl eq_refl).
Defined.

Lemma MaxUnitSize_in_range_witness :
  exists v, MaxUnitSize sample = (Returned v, sample) /\ v < 2 ^ SIZE_WIDTH.
Proof.
  apply (MaxUnitSize_in_range sample).
  intros u Hin. vm_compute in Hin.
  destruct Hin as [<-|[<-|[<-|[]]]]; split; reflexivity.
Defined.

Lemma MaxUnitSize_reads_held_units_only_witness :
  objects sample_with_spare 4%positive <> objects sample 4%positive /\
  fst (MaxUnitSize sample_with_spare) = fst (MaxUnitSize sample).
Proof.
  split; [discriminate|].
  apply (MaxUnitSize_reads_held_units_only sample sample_with_spare);
    [reflexivity|].
  intros p Hin. vm_compute in Hin.
  destruct Hin as [<-|[<-|[<-|[]]]]; reflexivity.
Defined.

Lemma GetUnit_reaches_every_unit_witness :
  exists index, index < N.of_nat (List.length (units sample)) /\
                GetUnit index sample = (Returned 3%positive, sample).
Proof.
  apply (GetUnit_reaches_every_unit sample 3%positive).
  right; right; left; reflexivity.
Defined.

Lemma MaxUnitSize_fits_GetUnit_witness :
  OutputCount (objects sample 1%positive) <= 7 /\
  (0 = 0 -> InputCount (objects sample 1%positive) <= 7).
Proof.
  apply (MaxUnitSize_fits_GetUnit sample 0 1%positive 7); reflexivity.
Defined.

Lemma mallocf_nonnull_from_success_witness :
  posix_memalign 64 (size_mul 16 sizeof_float) (heap sample) =
  (0%Z, 4096, heap (snd (mallocf 16 sample))).
Proof.
  apply (mallocf_nonnull_from_success sample 16 4096);
    [reflexivity | discriminate].
Defined.

Lemma mallocf_length_modulo_witness :
  size_mul 16 sizeof_float = 16 * sizeof_float /\
  mallocf (2 ^ 62 + 16) sample = mallocf ((2 ^ 62 + 16) mod 2 ^ 62) sample.
Proof.
  split.
  - apply (proj2 (proj1 (mallocf_length_modulo sample 16))). reflexivity.
  - apply (proj2 (mallocf_length_modulo sample (2 ^ 62 + 16))).
Defined.
